(** * Task store service: python_api_flask.py

    A shallow embedding of the five Flask handlers of
    [python_api_flask.py] (get_tasks, get_task, create_task, update_task,
    delete_task) over the module-level list [tasks], and the properties of
    the service that follow from the code.

    - JSON values are the Python values [json.loads] produces.
    - The global list [tasks] is the state; a handler is a function from the
      state to a result (a response or a raised exception) and a new state.
    - A reference to a task dict held by a handler (an element of the list
      comprehension [[task for task in tasks if task['id'] == task_id]]) is
      the position of that dict in [tasks]: every entry of [tasks] is a
      distinct dict object (the two seed literals, one fresh literal per
      create_task), so position and object identity coincide. *)

From Stdlib Require Import ZArith Lia.
From Stdlib Require Import Floats.SpecFloat.
From stdpp Require Import gmap strings list sorting.

Set Warnings "-register-all".
Open Scope Z_scope.

(** ** Python values *)

(** What [request.json] can hold once the framework has parsed the body. *)
Inductive json : Type :=
| JNull
| JBool (b : bool)
| JInt (z : Z)
| JFloat (f : spec_float)
| JStr (s : string)
| JList (l : list json)
| JDict (d : gmap string json).

(** The exceptions the handlers can let escape: Python's own, and the two
    HTTP errors that reading [request.json] raises. *)
Inductive exn : Type :=
| IndexError
| KeyError
| TypeError
| AttributeError
| ValueError
| BadRequest
| UnsupportedMediaType.

(** A Python expression either evaluates to a value or raises. *)
Inductive py (A : Type) : Type :=
| Ret (a : A)
| Raise (e : exn).
Arguments Ret {A} a.
Arguments Raise {A} e.

(** [bool(v)]: None, False, zero, the empty string and the empty containers
    are false. *)
Definition truthy (v : json) : bool :=
  match v with
  | JNull => false
  | JBool b => b
  | JInt z => negb (z =? 0)
  | JFloat (S754_zero _) => false
  | JFloat _ => true
  | JStr s => negb (String.eqb s "")
  | JList [] => false
  | JList (_ :: _) => true
  | JDict d => negb (bool_decide (d = ∅))
  end.

(** [k in v] for a string [k]: key membership on a dict, substring on a
    string, element membership on a list, TypeError elsewhere. *)
Definition py_in (k : string) (v : json) : py bool :=
  match v with
  | JDict d => Ret (bool_decide (is_Some (d !! k)))
  | JStr s => Ret (bool_decide (is_Some (String.index 0 k s)))
  | JList l =>
      Ret (existsb
             (fun x => match x with JStr s => String.eqb s k | _ => false end)
             l)
  | _ => Raise TypeError
  end.

(** [v[k]] for a string [k]. *)
Definition py_getitem (v : json) (k : string) : py json :=
  match v with
  | JDict d => match d !! k with Some x => Ret x | None => Raise KeyError end
  | _ => Raise TypeError
  end.

(** [v.get(k, dflt)]: only dicts have the method. *)
Definition py_get (v : json) (k : string) (dflt : json) : py json :=
  match v with
  | JDict d => Ret (default dflt (d !! k))
  | _ => Raise AttributeError
  end.

(** ** Tasks and responses *)

(** A task dict: the keys are fixed, [id] is always an int (set from an int
    by the seed and by create_task, never assigned afterwards); the other
    three hold whatever JSON value a request supplied. *)
Record Task : Type := mkTask {
  id : Z;
  title : json;
  description : json;
  done : json
}.

Definition set_title (v : json) (t : Task) : Task :=
  {| id := id t; title := v; description := description t; done := done t |}.
Definition set_description (v : json) (t : Task) : Task :=
  {| id := id t; title := title t; description := v; done := done t |}.
Definition set_done (v : json) (t : Task) : Task :=
  {| id := id t; title := title t; description := description t; done := v |}.

(** The argument of [jsonify]: the four shapes the handlers build. *)
Inductive payload : Type :=
| PTasks (l : list Task)
| PTask (t : Task)
| PError (msg : string)
| PResult (b : bool).

(** What a view function returns: a body and a status (200 when the handler
    gives none). *)
Record response : Type := mkResponse {
  body : payload;
  status : Z
}.

(** The module-level sample data. *)
Definition tasks : list Task :=
  [ {| id := 1; title := JStr "Task 1";
       description := JStr "Description for Task 1"; done := JBool false |};
    {| id := 2; title := JStr "Task 2";
       description := JStr "Description for Task 2"; done := JBool false |} ].

(** The body of a request as Flask's [request.json] sees it: the value a
    JSON body parses to, a body sent as JSON that does not parse (an empty
    one included), or a request whose content type is not JSON (a request
    with no body among them). *)
Inductive request_body : Type :=
| Parsed (v : json)
| Malformed
| NotJSON.

(** Reading [request.json]: the parsed value (None for the body [null]);
    the read itself raises BadRequest on a body that does not parse and
    UnsupportedMediaType on a request that is not JSON. Later reads in the
    same request give what the first one gave. *)
Definition request_json (rj : request_body) : py json :=
  match rj with
  | Parsed v => Ret v
  | Malformed => Raise BadRequest
  | NotJSON => Raise UnsupportedMediaType
  end.

(** ** Handlers as state transformers *)

(** A handler reads and mutates the global list; a raise leaves the list as
    it is at that moment. *)
Definition handler (A : Type) : Type := list Task -> py A * list Task.

Definition hret {A} (a : A) : handler A := fun ts => (Ret a, ts).
Definition hbind {A B} (m : handler A) (k : A -> handler B) : handler B :=
  fun ts =>
    match m ts with
    | (Ret a, ts') => k a ts'
    | (Raise e, ts') => (Raise e, ts')
    end.
Definition lift {A} (m : py A) : handler A := fun ts => (m, ts).
Definition read : handler (list Task) := fun ts => (Ret ts, ts).
Definition modify (f : list Task -> list Task) : handler unit :=
  fun ts => (Ret tt, f ts).

#[global] Instance handler_ret : MRet handler := @hret.
#[global] Instance handler_bind : MBind handler := fun A B k m => hbind m k.

(** [tasks[-1]]: IndexError on the empty list. *)
Definition py_last (ts : list Task) : py Task :=
  match last ts with
  | Some t => Ret t
  | None => Raise IndexError
  end.

(** The references that [[task for task in tasks if task['id'] == task_id]]
    collects, as positions in the list scanned from position [k] on. *)
Fixpoint select (task_id : Z) (k : nat) (ts : list Task) : list nat :=
  match ts with
  | [] => []
  | t :: ts' =>
      if id t =? task_id then k :: select task_id (S k) ts'
      else select task_id (S k) ts'
  end.

Definition matching (task_id : Z) : handler (list nat) :=
  fun ts => (Ret (select task_id 0 ts), ts).

(** Reading through a reference. A reference taken from [matching] is in
    range for as long as the list is not restructured, so the error branch
    is never taken by the handlers below. *)
Definition deref (i : nat) : handler Task :=
  fun ts =>
    match ts !! i with
    | Some t => (Ret t, ts)
    | None => (Raise IndexError, ts)
    end.

(** [task[0][field] = v]: the dict is mutated in place, inside the list. *)
Definition assign (i : nat) (f : Task -> Task) : handler unit :=
  modify (alter f i).

(** [list.remove(x)] where [x] is the object at position [i]: the first
    entry that is [x] or compares equal to it goes; ValueError if none. *)
Fixpoint list_remove (same : nat -> Task -> bool) (k : nat) (ts : list Task)
  : py (list Task) :=
  match ts with
  | [] => Raise ValueError
  | t :: ts' =>
      if same k t then Ret ts'
      else match list_remove same (S k) ts' with
           | Ret r => Ret (t :: r)
           | Raise e => Raise e
           end
  end.

Definition not_found : response := mkResponse (PError "Task not found") 404.

(** [get_tasks], lines 22-24. *)
Definition get_tasks : handler response :=
  ts ← read;
  mret (mkResponse (PTasks ts) 200).

(** [get_task], lines 27-32. *)
Definition get_task (task_id : Z) : handler response :=
  task ← matching task_id;
  match task with
  | [] => mret not_found
  | task0 :: _ =>
      t ← deref task0;
      mret (mkResponse (PTask t) 200)
  end.

(** The guard of line 37: [not request.json or 'title' not in request.json]. *)
Definition title_missing (rq : json) : py bool :=
  if negb (truthy rq) then Ret true
  else match py_in "title" rq with
       | Ret b => Ret (negb b)
       | Raise e => Raise e
       end.

(** [create_task], lines 35-46. *)
Definition create_task (rj : request_body) : handler response :=
  rq ← lift (request_json rj);
  missing ← lift (title_missing rq);
  if (missing : bool) then mret (mkResponse (PError "Title is required") 400)
  else
    ts ← read;
    last_task ← lift (py_last ts);
    new_title ← lift (py_getitem rq "title");
    new_description ← lift (py_get rq "description" (JStr ""));
    let task := {| id := id last_task + 1;
                   title := new_title;
                   description := new_description;
                   done := JBool false |} in
    modify (fun ts => ts ++ [task]);;
    mret (mkResponse (PTask task) 201).

(** [update_task], lines 49-59. *)
Definition update_task (task_id : Z) (rj : request_body)
  : handler response :=
  task ← matching task_id;
  match task with
  | [] => mret not_found
  | task0 :: _ =>
      rq ← lift (request_json rj);
      if negb (truthy rq)
      then mret (mkResponse (PError "No data provided") 400)
      else
        cur ← deref task0;
        v ← lift (py_get rq "title" (title cur));
        assign task0 (set_title v);;
        cur ← deref task0;
        v ← lift (py_get rq "description" (description cur));
        assign task0 (set_description v);;
        cur ← deref task0;
        v ← lift (py_get rq "done" (done cur));
        assign task0 (set_done v);;
        t ← deref task0;
        mret (mkResponse (PTask t) 200)
  end.

Section Service.

(** [py_eq a b] is Python's comparison of two field values inside a dict
    comparison ([a is b or a == b]). It is left open: no property of it
    is assumed anywhere below. *)
Variable py_eq : json -> json -> bool.

(** [t == x] on two task dicts: same keys, so the values decide. *)
Definition task_eq (t x : Task) : bool :=
  (id t =? id x) && py_eq (title t) (title x)
  && py_eq (description t) (description x) && py_eq (done t) (done x).

(** [tasks.remove(task[0])] with [task[0]] the object at position [i]. *)
Definition remove (i : nat) : handler unit :=
  x ← deref i;
  ts ← read;
  ts' ← lift (list_remove (fun j t => (j =? i)%nat || task_eq t x) 0%nat ts);
  modify (fun _ => ts').

(** [delete_task], lines 62-68. *)
Definition delete_task (task_id : Z) : handler response :=
  task ← matching task_id;
  match task with
  | [] => mret not_found
  | task0 :: _ =>
      remove task0;;
      mret (mkResponse (PResult true) 200)
  end.

(** ** The service: requests dispatched one after another *)

Inductive request : Type :=
| GET_tasks
| GET_task (task_id : Z)
| POST_tasks (rj : request_body)
| PUT_task (task_id : Z) (rj : request_body)
| DELETE_task (task_id : Z).

Definition dispatch (r : request) : handler response :=
  match r with
  | GET_tasks => get_tasks
  | GET_task task_id => get_task task_id
  | POST_tasks rj => create_task rj
  | PUT_task task_id rj => update_task task_id rj
  | DELETE_task task_id => delete_task task_id
  end.

(** Serving a sequence of requests from a given list: the results in
    order, and the list at the end. An escaped exception ends the request,
    not the process. *)
Fixpoint serve (rs : list request) (ts : list Task)
  : list (py response) * list Task :=
  match rs with
  | [] => ([], ts)
  | r :: rs' =>
      let '(res, ts1) := dispatch r ts in
      let '(out, ts2) := serve rs' ts1 in
      (res :: out, ts2)
  end.

(** The lists the running service can hold. *)
Definition reachable (ts : list Task) : Prop :=
  exists rs, (serve rs tasks).2 = ts.

(** The task a result reports as created: only create_task answers 201. *)
Definition created_task (res : py response) : option Task :=
  match res with
  | Ret {| body := PTask t; status := 201 |} => Some t
  | _ => None
  end.

(** Every task that has existed since start-up when [rs] has been served:
    the sample data and what the successful creates added, deleted or
    not. *)
Definition ever_created (rs : list request) : list Task :=
  tasks ++ omap created_task (serve rs tasks).1.

End Service.

(** Whether a result reports a deletion: only delete_task answers
    {result: true}. *)
Definition deleted_task (res : py response) : bool :=
  match res with
  | Ret {| body := PResult true; status := 200 |} => true
  | _ => false
  end.

(** How many of the results report a created task, and how many a deleted
    one. *)
Definition created_count (outs : list (py response)) : nat :=
  length (omap created_task outs).
Definition deleted_count (outs : list (py response)) : nat :=
  length (List.filter deleted_task outs).

(** A body create_task accepts: a JSON object with a [title] key. *)
Definition has_title (rj : request_body) : Prop :=
  exists d, rj = Parsed (JDict d) /\ is_Some (d !! "title").

(** A task after a partial update from the JSON object [d]: a field takes
    the member of [d] under its name when there is one. *)
Definition merged (d : gmap string json) (t : Task) : Task :=
  {| id := id t;
     title := default (title t) (d !! "title");
     description := default (description t) (d !! "description");
     done := default (done t) (d !! "done") |}.

(** The list invariant of the service: ids grow along the list. *)
Definition ascending (ts : list Task) : Prop :=
  StronglySorted (fun a b => id a < id b) ts.

(** A comparison to run the service with on concrete requests: equality of
    two nulls, two booleans, two ints or two strings, as Python's [==] has
    it on such pairs. The choice is immaterial, see [serve_any_eq]. *)
Definition scalar_eq (a b : json) : bool :=
  match a, b with
  | JNull, JNull => true
  | JBool x, JBool y => Bool.eqb x y
  | JInt x, JInt y => x =? y
  | JStr x, JStr y => String.eqb x y
  | _, _ => false
  end.

(** A JSON object body given by its members as written; of two members
    with one name the later one counts, as for [json.loads]. *)
Definition obj (l : list (string * json)) : request_body :=
  Parsed (JDict (list_to_map (reverse l))).


(** The requests that can change the list: all but the two GETs. *)
Definition writes (r : request) : bool :=
  match r with
  | GET_tasks | GET_task _ => false
  | _ => true
  end.

(** ** Looking a task up by id *)

Lemma select_nil task_id k ts :
  select task_id k ts = [] <-> Forall (fun u => id u <> task_id) ts.
Proof.
  revert k. induction ts as [|t ts IH]; intros k; simpl.
  - split; [constructor | reflexivity].
  - destruct (Z.eqb_spec (id t) task_id) as [E|E].
    + split; [discriminate | intros H; inversion H; contradiction].
    + rewrite IH. split; [by constructor | by inversion 1].
Qed.

Lemma select_first task_id k pre t post :
  Forall (fun u => id u <> task_id) pre -> id t = task_id ->
  select task_id k (pre ++ t :: post)
  = (k + length pre)%nat :: select task_id (S (k + length pre)) post.
Proof.
  intros Hpre Ht. revert k. induction Hpre as [|u pre Hu _ IH]; intros k; simpl.
  - rewrite Ht, Z.eqb_refl, Nat.add_0_r. reflexivity.
  - destruct (Z.eqb_spec (id u) task_id) as [E|_]; [contradiction|].
    rewrite IH, Nat.add_succ_r. reflexivity.
Qed.

Lemma select_cons_inv task_id k ts i rest :
  select task_id k ts = i :: rest ->
  exists pre t post,
    ts = pre ++ t :: post /\ i = (k + length pre)%nat /\ id t = task_id
    /\ Forall (fun u => id u <> task_id) pre.
Proof.
  revert k. induction ts as [|u ts IH]; intros k; simpl; [discriminate|].
  destruct (Z.eqb_spec (id u) task_id) as [E|E].
  - intros [= <- _]. exists [], u, ts. simpl.
    repeat split; first [lia | by constructor | done].
  - intros H. destruct (IH _ H) as (pre & t & post & -> & -> & Ht & Hpre).
    exists (u :: pre), t, post. simpl.
    repeat split; first [lia | by constructor | done].
Qed.

(** A list either holds no task with the id or splits at the first one. *)
Lemma first_match task_id ts :
  Forall (fun u => id u <> task_id) ts
  \/ exists pre t post,
       ts = pre ++ t :: post /\ id t = task_id
       /\ Forall (fun u => id u <> task_id) pre.
Proof.
  destruct (select task_id 0 ts) as [|i rest] eqn:E.
  - left. by apply select_nil in E.
  - right.
    destruct (select_cons_inv _ _ _ _ _ E) as (pre & t & post & ? & _ & ? & ?).
    eauto 6.
Qed.

(** ** The handlers in closed form *)

Lemma get_task_found task_id pre t post :
  Forall (fun u => id u <> task_id) pre -> id t = task_id ->
  get_task task_id (pre ++ t :: post)
  = (Ret (mkResponse (PTask t) 200), pre ++ t :: post).
Proof.
  intros Hpre Ht. unfold get_task, mbind, handler_bind, hbind, matching.
  rewrite (select_first _ _ _ _ _ Hpre Ht). simpl.
  unfold deref. rewrite list_lookup_middle by reflexivity. reflexivity.
Qed.

Lemma get_task_missing task_id ts :
  Forall (fun u => id u <> task_id) ts ->
  get_task task_id ts = (Ret not_found, ts).
Proof.
  intros H. apply (select_nil _ 0%nat) in H.
  unfold get_task, mbind, handler_bind, hbind, matching. rewrite H. reflexivity.
Qed.

Lemma title_missing_dict d :
  title_missing (JDict d) = Ret (negb (bool_decide (is_Some (d !! "title")))).
Proof.
  unfold title_missing. simpl. case_bool_decide as E; simpl; [|reflexivity].
  subst d. rewrite lookup_empty. reflexivity.
Qed.

Lemma create_task_accepts d new_title last_task ts :
  d !! "title" = Some new_title -> last ts = Some last_task ->
  let task := {| id := id last_task + 1;
                 title := new_title;
                 description := default (JStr "") (d !! "description");
                 done := JBool false |} in
  create_task (Parsed (JDict d)) ts
  = (Ret (mkResponse (PTask task) 201), ts ++ [task]).
Proof.
  intros Hd Hl task. unfold create_task, mbind, handler_bind, hbind, lift, read.
  simpl request_json. cbv beta iota. rewrite title_missing_dict.
  rewrite bool_decide_eq_true_2 by (rewrite Hd; eauto). simpl.
  unfold py_last. rewrite Hl, Hd. reflexivity.
Qed.

(** A request whose [request.json] raises: create_task raises the same and
    leaves the list alone. *)
Lemma create_task_no_json rj e ts :
  request_json rj = Raise e -> create_task rj ts = (Raise e, ts).
Proof.
  intros E. unfold create_task, mbind, handler_bind, hbind, lift.
  by rewrite E.
Qed.

(** A 201 comes from a JSON object with a title and a non-empty list, and
    the task it reports is the one appended. *)
Lemma create_task_201_inv rj ts res ts' t :
  create_task rj ts = (res, ts') -> created_task res = Some t ->
  exists d new_title last_task,
    rj = Parsed (JDict d) /\ d !! "title" = Some new_title
    /\ last ts = Some last_task
    /\ t = {| id := id last_task + 1;
              title := new_title;
              description := default (JStr "") (d !! "description");
              done := JBool false |}
    /\ res = Ret (mkResponse (PTask t) 201)
    /\ ts' = ts ++ [t].
Proof.
  unfold create_task, mbind, handler_bind, hbind, lift, read.
  destruct rj as [rq| |]; simpl request_json; cbv beta iota;
    [|intros [= <- <-]; discriminate..].
  destruct (title_missing rq) as [[|]|e] eqn:Hm;
    [intros [= <- <-]; discriminate | | intros [= <- <-]; discriminate].
  unfold py_last. destruct (last ts) as [last_task|] eqn:Hl;
    [|intros [= <- <-]; discriminate].
  destruct rq as [| | | | |l|d];
    try (intros [= <- <-]; discriminate).
  rewrite title_missing_dict in Hm. injection Hm as Hm.
  apply negb_false_iff, bool_decide_eq_true in Hm.
  destruct Hm as [new_title Hd].
  simpl. rewrite Hd. simpl. unfold modify. intros [= <- <-] [= <-].
  exists d, new_title, last_task. repeat split; assumption.
Qed.

Lemma alter_middle (f : Task -> Task) pre t post :
  alter f (length pre) (pre ++ t :: post) = pre ++ f t :: post.
Proof. induction pre as [|u pre IH]; simpl; [reflexivity | by f_equal]. Qed.

Lemma update_task_missing task_id rj ts :
  Forall (fun u => id u <> task_id) ts ->
  update_task task_id rj ts = (Ret not_found, ts).
Proof.
  intros H. apply (select_nil _ 0%nat) in H.
  unfold update_task, mbind, handler_bind, hbind, matching. rewrite H.
  reflexivity.
Qed.

Lemma update_task_no_data task_id v pre t post :
  Forall (fun u => id u <> task_id) pre -> id t = task_id ->
  truthy v = false ->
  update_task task_id (Parsed v) (pre ++ t :: post)
  = (Ret (mkResponse (PError "No data provided") 400), pre ++ t :: post).
Proof.
  intros Hpre Ht Hrq. unfold update_task, mbind, handler_bind, hbind, matching.
  rewrite (select_first _ _ _ _ _ Hpre Ht). simpl. by rewrite Hrq.
Qed.

Lemma update_task_merges task_id d pre t post :
  Forall (fun u => id u <> task_id) pre -> id t = task_id -> d <> ∅ ->
  update_task task_id (Parsed (JDict d)) (pre ++ t :: post)
  = (Ret (mkResponse (PTask (merged d t)) 200), pre ++ merged d t :: post).
Proof.
  intros Hpre Ht Hd. unfold update_task, mbind, handler_bind, hbind, matching.
  rewrite (select_first _ _ _ _ _ Hpre Ht). simpl.
  rewrite bool_decide_eq_false_2 by assumption. simpl.
  unfold deref, assign, modify, lift.
  rewrite list_lookup_middle by reflexivity. rewrite alter_middle.
  rewrite list_lookup_middle by reflexivity. rewrite alter_middle.
  rewrite list_lookup_middle by reflexivity. rewrite alter_middle.
  rewrite list_lookup_middle by reflexivity. reflexivity.
Qed.

Lemma update_task_not_object task_id v pre t post :
  Forall (fun u => id u <> task_id) pre -> id t = task_id ->
  truthy v = true -> (forall d, v <> JDict d) ->
  update_task task_id (Parsed v) (pre ++ t :: post)
  = (Raise AttributeError, pre ++ t :: post).
Proof.
  intros Hpre Ht Hrq Hno.
  unfold update_task, mbind, handler_bind, hbind, matching.
  rewrite (select_first _ _ _ _ _ Hpre Ht). simpl. rewrite Hrq. simpl.
  unfold deref. rewrite list_lookup_middle by reflexivity.
  destruct v as [| | | | | |d]; try reflexivity. by destruct (Hno d).
Qed.

(** On the id of an existing task a request whose [request.json] raises
    makes update_task raise the same and leave the list alone. *)
Lemma update_task_no_json task_id rj e pre t post :
  Forall (fun u => id u <> task_id) pre -> id t = task_id ->
  request_json rj = Raise e ->
  update_task task_id rj (pre ++ t :: post) = (Raise e, pre ++ t :: post).
Proof.
  intros Hpre Ht E. unfold update_task, mbind, handler_bind, hbind, matching.
  rewrite (select_first _ _ _ _ _ Hpre Ht). simpl. unfold lift. by rewrite E.
Qed.

(** When the guard of create_task finds the title missing. *)
Lemma title_missing_true v :
  title_missing v = Ret true
  <-> truthy v = false
      \/ (exists d, v = JDict d /\ d !! "title" = None)
      \/ (exists s, v = JStr s /\ String.index 0 "title" s = None)
      \/ (exists l, v = JList l /\ JStr "title" ∉ l).
Proof.
  unfold title_missing. destruct (truthy v) eqn:Hrq; simpl; [|by split; auto].
  destruct v as [|b|z|f|s|l|d]; simpl.
  - discriminate.
  - split; [discriminate|].
    intros [? | [(? & ? & _) | [(? & ? & _) | (? & ? & _)]]]; discriminate.
  - split; [discriminate|].
    intros [? | [(? & ? & _) | [(? & ? & _) | (? & ? & _)]]]; discriminate.
  - split; [discriminate|].
    intros [? | [(? & ? & _) | [(? & ? & _) | (? & ? & _)]]]; discriminate.
  - split.
    + intros [= Hb]. right; right; left. exists s. split; [reflexivity|].
      apply negb_true_iff, bool_decide_eq_false in Hb.
      destruct (String.index 0 "title" s); [|reflexivity]. destruct Hb. eauto.
    + intros [? | [(? & ? & _) | [(s' & [= <-] & Hs) | (? & ? & _)]]];
        try discriminate.
      by rewrite Hs.
  - assert (existsb (fun x => match x with
                              | JStr s => String.eqb s "title"
                              | _ => false
                              end) l = false <-> JStr "title" ∉ l) as Hmem.
    { clear. induction l as [|x l IH]; simpl.
      - split; [intros _; apply not_elem_of_nil | reflexivity].
      - rewrite orb_false_iff, IH, not_elem_of_cons. split.
        + intros [Hx Hl]. split; [|assumption]. intros <-.
          by rewrite String.eqb_refl in Hx.
        + intros [Hx Hl]. split; [|assumption].
          destruct x as [| | | |s| |]; try reflexivity.
          apply String.eqb_neq. congruence. }
    split.
    + intros [= Hb]. do 3 right. exists l. split; [reflexivity|].
      by apply Hmem, negb_true_iff.
    + intros [? | [(? & ? & _) | [(? & ? & _) | (l' & [= <-] & Hl)]]];
        try discriminate.
      f_equal. by apply negb_true_iff, Hmem.
  - split.
    + intros [= Hb]. right; left. exists d. split; [reflexivity|].
      apply negb_true_iff, bool_decide_eq_false in Hb.
      destruct (d !! "title"); [|reflexivity]. destruct Hb. eauto.
    + intros [? | [(d' & [= <-] & Hd) | [(? & ? & _) | (? & ? & _)]]];
        try discriminate.
      by rewrite Hd.
Qed.

(** A body the guard of create_task turns down gets the 400 answer. *)
Lemma create_task_title_missing v ts :
  title_missing v = Ret true ->
  create_task (Parsed v) ts
  = (Ret (mkResponse (PError "Title is required") 400), ts).
Proof.
  intros E. unfold create_task, mbind, handler_bind, hbind, lift.
  simpl request_json. cbv beta iota. by rewrite E.
Qed.

(** update_task in closed form, whatever the id and the body: no task of
    the id; a body that parses to a false value; a non-empty JSON object; a
    true value that is not an object; a body that does not parse; a request
    that is not JSON. *)
Lemma update_task_cases task_id rj ts :
  (Forall (fun u => id u <> task_id) ts
   /\ update_task task_id rj ts = (Ret not_found, ts))
  \/ exists pre t post,
       ts = pre ++ t :: post
       /\ Forall (fun u => id u <> task_id) pre /\ id t = task_id
       /\ ((exists v, rj = Parsed v /\ truthy v = false
            /\ update_task task_id rj ts
               = (Ret (mkResponse (PError "No data provided") 400), ts))
           \/ (exists d, rj = Parsed (JDict d) /\ d <> ∅
               /\ update_task task_id rj ts
                  = (Ret (mkResponse (PTask (merged d t)) 200),
                     pre ++ merged d t :: post))
           \/ (exists v, rj = Parsed v /\ truthy v = true
               /\ (forall d, v <> JDict d)
               /\ update_task task_id rj ts = (Raise AttributeError, ts))
           \/ (rj = Malformed
               /\ update_task task_id rj ts = (Raise BadRequest, ts))
           \/ (rj = NotJSON
               /\ update_task task_id rj ts
                  = (Raise UnsupportedMediaType, ts))).
Proof.
  destruct (first_match task_id ts)
    as [H | (pre & t & post & -> & Ht & Hpre)].
  { left. split; [assumption | by apply update_task_missing]. }
  right. exists pre, t, post. do 3 (split; [done|]).
  destruct rj as [v| |].
  - destruct (truthy v) eqn:Hrq.
    + destruct v as [| | | | | |d];
        try (right; right; left; eexists; split; [reflexivity|];
             split; [assumption|]; split; [congruence|];
             apply update_task_not_object; (done || congruence)).
      right; left. exists d.
      assert (d <> ∅) as Hd.
      { intros ->. simpl in Hrq. by rewrite bool_decide_eq_true_2 in Hrq. }
      do 2 (split; [done|]). by apply update_task_merges.
    + left. exists v. do 2 (split; [done|]). by apply update_task_no_data.
  - do 3 right. left. split; [reflexivity|]. by apply update_task_no_json.
  - do 4 right. split; [reflexivity|]. by apply update_task_no_json.
Qed.

(** Case analysis on what update_task does. *)
Ltac update_cases task_id rj ts :=
  destruct (update_task_cases task_id rj ts)
    as [[Hmiss E]
       | (pre & t0 & post & -> & Hpre & Ht0 &
          [(v & -> & Hrq & E)
          | [(d & -> & Hd & E)
            | [(v & -> & Hrq & Hno & E)
              | [[-> E] | [-> E]]]]])].

Section Properties.

Variable py_eq : json -> json -> bool.

Lemma list_remove_first k pre x post :
  Forall (fun u => id u <> id x) pre ->
  list_remove (fun j t => (j =? k + length pre)%nat || task_eq py_eq t x)
    k (pre ++ x :: post)
  = Ret (pre ++ post).
Proof.
  intros Hpre. revert k. induction Hpre as [|u pre Hu _ IH]; intros k; simpl.
  - rewrite Nat.add_0_r, Nat.eqb_refl. reflexivity.
  - replace (k =? k + S (length pre))%nat with false
      by (symmetry; apply Nat.eqb_neq; lia).
    unfold task_eq at 1. replace (id u =? id x) with false
      by (symmetry; by apply Z.eqb_neq).
    simpl. rewrite <- Nat.add_succ_comm, IH. reflexivity.
Qed.

Lemma delete_task_found task_id pre t post :
  Forall (fun u => id u <> task_id) pre -> id t = task_id ->
  delete_task py_eq task_id (pre ++ t :: post)
  = (Ret (mkResponse (PResult true) 200), pre ++ post).
Proof.
  intros Hpre Ht.
  unfold delete_task, remove, mbind, handler_bind, hbind, matching.
  rewrite (select_first _ _ _ _ _ Hpre Ht). simpl.
  unfold deref, read, lift, modify.
  rewrite list_lookup_middle by reflexivity.
  pose proof (list_remove_first 0 pre t post) as Hrm. simpl in Hrm.
  rewrite Hrm; [reflexivity|]. by rewrite Ht.
Qed.

Lemma delete_task_missing task_id ts :
  Forall (fun u => id u <> task_id) ts ->
  delete_task py_eq task_id ts = (Ret not_found, ts).
Proof.
  intros H. apply (select_nil _ 0%nat) in H.
  unfold delete_task, mbind, handler_bind, hbind, matching. rewrite H.
  reflexivity.
Qed.

(** ** The invariant: ids grow along the list *)

Lemma ascending_seed : ascending tasks.
Proof.
  unfold ascending, tasks. repeat constructor; simpl; lia.
Qed.

Lemma ascending_below_last ts last_task :
  ascending ts -> last ts = Some last_task ->
  Forall (fun u => id u <= id last_task) ts.
Proof.
  intros Hs Hl. apply last_Some in Hl as [front ->].
  apply StronglySorted_app in Hs as (Hlt & _ & _).
  apply Forall_app. split.
  - apply Forall_forall. intros u Hu.
    apply Z.lt_le_incl, (Hlt u last_task Hu). by apply list_elem_of_singleton.
  - repeat constructor. lia.
Qed.

Lemma ascending_snoc ts last_task t :
  ascending ts -> last ts = Some last_task -> id t = id last_task + 1 ->
  ascending (ts ++ [t]).
Proof.
  intros Hs Hl Ht. pose proof (ascending_below_last _ _ Hs Hl) as Hle.
  apply StronglySorted_app_2; [|assumption|repeat constructor].
  intros u v Hu Hv. apply list_elem_of_singleton in Hv as ->.
  rewrite Forall_forall in Hle. specialize (Hle u Hu). lia.
Qed.

Lemma ascending_replace pre t t' post :
  id t' = id t -> ascending (pre ++ t :: post) -> ascending (pre ++ t' :: post).
Proof.
  intros Hid Hs. apply StronglySorted_app in Hs as (Hlt & Hpre & Hpost).
  apply StronglySorted_cons in Hpost as [Hhd Hpost].
  apply StronglySorted_app_2; [|assumption|].
  - intros u v Hu Hv. apply elem_of_cons in Hv as [-> | Hv].
    + rewrite Hid. apply Hlt; [assumption | apply elem_of_cons; by left].
    + apply Hlt; [assumption | apply elem_of_cons; by right].
  - apply StronglySorted_cons. split; [|assumption].
    eapply Forall_impl; [exact Hhd|]. intros v Hv. simpl in *. lia.
Qed.

Lemma ascending_delete pre t post :
  ascending (pre ++ t :: post) -> ascending (pre ++ post).
Proof.
  intros Hs. apply StronglySorted_app in Hs as (Hlt & Hpre & Hpost).
  apply StronglySorted_cons in Hpost as [_ Hpost].
  apply StronglySorted_app_2; [|assumption..].
  intros u v Hu Hv. apply Hlt; [assumption | apply elem_of_cons; by right].
Qed.

(** In an ascending list an id occurs once. *)
Lemma ascending_unique pre t post :
  ascending (pre ++ t :: post) ->
  Forall (fun u => id u <> id t) (pre ++ post).
Proof.
  intros Hs. apply StronglySorted_app in Hs as (Hlt & _ & Hpost).
  apply StronglySorted_cons in Hpost as [Hhd _].
  apply Forall_app. split.
  - apply Forall_forall. intros u Hu.
    apply Z.lt_neq, Hlt; [assumption | apply elem_of_cons; by left].
  - eapply Forall_impl; [exact Hhd|]. intros v Hv. simpl in *. lia.
Qed.

Lemma create_task_cases rj ts :
  (create_task rj ts).2 = ts
  \/ exists t, created_task (create_task rj ts).1 = Some t.
Proof.
  unfold create_task, mbind, handler_bind, hbind, lift, read.
  destruct rj as [rq| |]; simpl; auto.
  destruct (title_missing rq) as [[|]|e]; simpl; auto.
  destruct (py_last ts); simpl; auto.
  destruct (py_getitem rq "title"); simpl; auto.
  destruct (py_get rq "description" (JStr "")); simpl; eauto.
Qed.

Lemma create_task_ascending rj ts :
  ascending ts -> ascending (create_task rj ts).2.
Proof.
  intros Hs. destruct (create_task_cases rj ts) as [-> | [t Ht]]; [assumption|].
  destruct (create_task rj ts) as [res ts'] eqn:E. simpl in *.
  destruct (create_task_201_inv _ _ _ _ _ E Ht)
    as (d & new_title & last_task & _ & _ & Hl & -> & _ & ->).
  by eapply ascending_snoc.
Qed.

Lemma update_task_ascending task_id rj ts :
  ascending ts -> ascending (update_task task_id rj ts).2.
Proof.
  intros Hs. update_cases task_id rj ts; rewrite E; try assumption.
  simpl. by apply (ascending_replace pre t0).
Qed.

Lemma delete_task_ascending task_id ts :
  ascending ts -> ascending (delete_task py_eq task_id ts).2.
Proof.
  intros Hs.
  destruct (first_match task_id ts)
  as [H | (pre & t & post & -> & Ht & Hpre)].
  - by rewrite delete_task_missing.
  - rewrite delete_task_found by assumption. simpl. by eapply ascending_delete.
Qed.

Lemma get_task_state task_id ts : (get_task task_id ts).2 = ts.
Proof.
  destruct (first_match task_id ts)
  as [H | (pre & t & post & -> & Ht & Hpre)].
  - by rewrite get_task_missing.
  - by rewrite get_task_found.
Qed.

Lemma dispatch_ascending r ts :
  ascending ts -> ascending (dispatch py_eq r ts).2.
Proof.
  destruct r; simpl.
  - auto.
  - by rewrite get_task_state.
  - apply create_task_ascending.
  - apply update_task_ascending.
  - apply delete_task_ascending.
Qed.

Lemma serve_cons r rs ts :
  serve py_eq (r :: rs) ts
  = ((dispatch py_eq r ts).1 :: (serve py_eq rs (dispatch py_eq r ts).2).1,
     (serve py_eq rs (dispatch py_eq r ts).2).2).
Proof.
  simpl. destruct (dispatch py_eq r ts) as [res ts1].
  simpl. by destruct (serve py_eq rs ts1).
Qed.

Lemma serve_ascending rs ts :
  ascending ts -> ascending (serve py_eq rs ts).2.
Proof.
  revert ts. induction rs as [|r rs IH]; intros ts Hs; [assumption|].
  rewrite serve_cons. simpl. by apply IH, dispatch_ascending.
Qed.

Lemma reachable_ascending ts : reachable py_eq ts -> ascending ts.
Proof. intros [rs <-]. apply serve_ascending, ascending_seed. Qed.

(** ** How the length of the list moves *)

Lemma create_task_effect rj ts :
  (created_task (create_task rj ts).1 = None /\ (create_task rj ts).2 = ts)
  \/ exists t, created_task (create_task rj ts).1 = Some t
               /\ (create_task rj ts).2 = ts ++ [t].
Proof.
  destruct (created_task (create_task rj ts).1) as [t|] eqn:Ht.
  - right. exists t. split; [reflexivity|].
    destruct (create_task rj ts) as [res ts'] eqn:E.
    by destruct (create_task_201_inv _ _ _ _ _ E Ht)
      as (_ & _ & _ & _ & _ & _ & _ & _ & ->).
  - left. split; [reflexivity|].
    destruct (create_task_cases rj ts) as [-> | [t Ht']]; congruence.
Qed.

Lemma create_task_not_deleted rj ts :
  deleted_task (create_task rj ts).1 = false.
Proof.
  unfold create_task, mbind, handler_bind, hbind, lift, read.
  destruct rj as [rq| |]; simpl; auto.
  destruct (title_missing rq) as [[|]|e]; simpl; auto.
  destruct (py_last ts); simpl; auto.
  destruct (py_getitem rq "title"); simpl; auto.
  destruct (py_get rq "description" (JStr "")); simpl; auto.
Qed.

Lemma dispatch_length r ts :
  (length (dispatch py_eq r ts).2 + deleted_count [(dispatch py_eq r ts).1]
   = length ts + created_count [(dispatch py_eq r ts).1])%nat.
Proof.
  unfold deleted_count, created_count.
  destruct r as [|task_id|rj|task_id rj|task_id]; simpl dispatch.
  - reflexivity.
  - destruct (first_match task_id ts)
    as [H | (pre & t & post & -> & Ht & Hpre)].
    + by rewrite get_task_missing.
    + by rewrite get_task_found.
  - simpl. rewrite create_task_not_deleted.
    destruct (create_task_effect rj ts) as [[-> ->] | (t & -> & ->)]; simpl.
    + reflexivity.
    + rewrite length_app. simpl. lia.
  - update_cases task_id rj ts; rewrite E; try reflexivity.
    simpl. rewrite !length_app. simpl. lia.
  - destruct (first_match task_id ts)
    as [H | (pre & t & post & -> & Ht & Hpre)].
    + by rewrite delete_task_missing.
    + rewrite delete_task_found by assumption. simpl.
      rewrite !length_app. simpl. lia.
Qed.

Lemma created_count_cons res outs :
  created_count (res :: outs)
  = (created_count [res] + created_count outs)%nat.
Proof. unfold created_count. simpl. by destruct (created_task res). Qed.

Lemma deleted_count_cons res outs :
  deleted_count (res :: outs)
  = (deleted_count [res] + deleted_count outs)%nat.
Proof. unfold deleted_count. simpl. by destruct (deleted_task res). Qed.

Lemma serve_length rs ts :
  (length (serve py_eq rs ts).2 + deleted_count (serve py_eq rs ts).1
   = length ts + created_count (serve py_eq rs ts).1)%nat.
Proof.
  revert ts. induction rs as [|r rs IH]; intros ts.
  { unfold deleted_count, created_count. simpl. lia. }
  rewrite serve_cons. cbn [fst snd].
  rewrite created_count_cons, deleted_count_cons.
  pose proof (dispatch_length r ts). pose proof (IH (dispatch py_eq r ts).2).
  lia.
Qed.

(** ** A run of creates *)

Lemma serve_creates bodies : forall ts last_task,
  last ts = Some last_task -> Forall has_title bodies ->
  exists created,
    (serve py_eq (POST_tasks <$> bodies) ts).1
    = (fun t => Ret (mkResponse (PTask t) 201)) <$> created
    /\ length created = length bodies
    /\ Sorted (fun a b => id a < id b) created
    /\ HdRel (fun a b => id a < id b) last_task created.
Proof.
  induction bodies as [|rj bodies IH]; intros ts last_task Hl Hb.
  { exists []. repeat split; constructor. }
  inversion Hb as [|? ? (d & -> & [new_title Hd]) Hb']; subst.
  rewrite fmap_cons, serve_cons. simpl dispatch.
  rewrite (create_task_accepts _ _ _ _ Hd Hl). simpl.
  set (task := {| id := id last_task + 1; title := new_title;
                  description := default (JStr "") (d !! "description");
                  done := JBool false |}).
  destruct (IH (ts ++ [task]) task (last_snoc _ _) Hb')
    as (created & Hout & Hlen & Hsorted & Hhd).
  exists (task :: created). rewrite Hout. repeat split.
  - simpl. by rewrite Hlen.
  - by constructor.
  - constructor. simpl. lia.
Qed.

(** What a successful create does to a list the service can hold. *)
Lemma create_task_appends_above ts rj res ts' t :
  reachable py_eq ts ->
  create_task rj ts = (res, ts') -> created_task res = Some t ->
  ts' = ts ++ [t] /\ Forall (fun u => id u < id t) ts.
Proof.
  intros Hr E Ht. apply reachable_ascending in Hr.
  destruct (create_task_201_inv _ _ _ _ _ E Ht)
    as (d & new_title & last_task & _ & _ & Hl & -> & _ & ->).
  split; [reflexivity|]. simpl.
  eapply Forall_impl; [by apply ascending_below_last|].
  intros u Hu. simpl in Hu. lia.
Qed.

(** ** Properties of the service *)

(** C1, as the code has it: in every list the service can hold, a
    successful create_task assigns the id of the last task plus one, which
    is greater than, and so distinct from, the id of every task in the
    list at that moment. Nothing is said of tasks deleted earlier. *)
Theorem create_task_id_above_current ts rj res ts' t :
  reachable py_eq ts ->
  create_task rj ts = (res, ts') -> created_task res = Some t ->
  (exists last_task, last ts = Some last_task /\ id t = id last_task + 1)
  /\ Forall (fun u => id u < id t) ts.
Proof.
  intros Hr E Ht. apply reachable_ascending in Hr.
  destruct (create_task_201_inv _ _ _ _ _ E Ht)
    as (d & new_title & last_task & _ & _ & Hl & -> & _ & _).
  split; [by exists last_task|]. simpl.
  eapply Forall_impl; [by apply ascending_below_last|].
  intros u Hu. simpl in Hu. lia.
Qed.

(** C2, as the code has it: starting from the sample data, the length of
    the list is two plus the successful creates minus the successful
    deletes of the sequence served; create_task is invoked on the empty
    list exactly after the sequences whose successful deletes number two
    more than their successful creates. *)
Theorem empty_list_iff_all_deleted rs :
  (length (serve py_eq rs tasks).2 + deleted_count (serve py_eq rs tasks).1
   = 2 + created_count (serve py_eq rs tasks).1)%nat
  /\ ((serve py_eq rs tasks).2 = []
      <-> deleted_count (serve py_eq rs tasks).1
          = (2 + created_count (serve py_eq rs tasks).1)%nat).
Proof.
  pose proof (serve_length rs tasks) as Hlen. simpl length in Hlen at 2.
  split; [exact Hlen|]. split.
  - intros Hnil. rewrite Hnil in Hlen. simpl in Hlen. lia.
  - intros Hd. apply length_zero_iff_nil. lia.
Qed.

(** C3: on a non-empty list and a JSON object with a [title] key,
    create_task builds the task with id one above the last task's id, the
    body's title, the body's description or the empty string, and done
    false; it appends the task to the list and answers 201 with the task
    under key [task]. *)
Theorem create_task_postcondition ts d new_title :
  ts <> [] -> d !! "title" = Some new_title ->
  exists last_task,
    last ts = Some last_task
    /\ let task := {| id := id last_task + 1;
                      title := new_title;
                      description :=
                        match d !! "description" with
                        | Some v => v
                        | None => JStr ""
                        end;
                      done := JBool false |} in
       create_task (Parsed (JDict d)) ts
       = (Ret {| body := PTask task; status := 201 |}, ts ++ [task]).
Proof.
  intros Hne Hd. apply last_is_Some in Hne as [last_task Hl].
  exists last_task. split; [assumption|].
  rewrite (create_task_accepts _ _ _ _ Hd Hl). by destruct (d !! "description").
Qed.


(** C5: update_task with a JSON object body leaves the list as it was but
    for the first task with the id, whose title, description and done take
    the body's value when the body has the key and keep their value
    otherwise, and whose id stays, whatever the body holds; the answer to
    a non-empty object is that task with status 200. With the body
    {done: true} only [done] changes. *)
Theorem update_task_frame task_id d pre t post :
  Forall (fun u => id u <> task_id) pre -> id t = task_id ->
  (exists t',
     (update_task task_id (Parsed (JDict d)) (pre ++ t :: post)).2
     = pre ++ t' :: post
     /\ id t' = id t
     /\ title t' = match d !! "title" with Some v => v | None => title t end
     /\ description t'
        = match d !! "description" with Some v => v | None => description t end
     /\ done t' = match d !! "done" with Some v => v | None => done t end
     /\ (d <> ∅ ->
         (update_task task_id (Parsed (JDict d)) (pre ++ t :: post)).1
         = Ret {| body := PTask t'; status := 200 |}))
  /\ update_task task_id (Parsed (JDict {["done" := JBool true]}))
     (pre ++ t :: post)
     = (Ret {| body := PTask {| id := id t; title := title t;
                                description := description t;
                                done := JBool true |};
               status := 200 |},
        pre ++ {| id := id t; title := title t; description := description t;
                  done := JBool true |} :: post).
Proof.
  intros Hpre Ht. split.
  - exists (merged d t). split; [|do 4 (split; [reflexivity|])].
    + destruct (decide (d = ∅)) as [-> | Hd].
      * rewrite update_task_no_data by (assumption || reflexivity).
        by destruct t.
      * by rewrite update_task_merges.
    + intros Hd. by rewrite update_task_merges.
  - rewrite update_task_merges; [|assumption..|].
    { unfold merged. rewrite !lookup_singleton_ne by done.
      by rewrite lookup_singleton_eq. }
    intros Hd. apply (f_equal (fun m => m !! "done")) in Hd.
    by rewrite lookup_singleton_eq, lookup_empty in Hd.
Qed.

(** C6: in every list the service can hold, delete_task on the id of an
    existing task removes the first task with that id and nothing else,
    so the list is one shorter; it answers {result: true} with status
    200, and get_task on the same id then answers 404 "Task not found". *)
Theorem delete_task_postcondition ts task_id :
  reachable py_eq ts -> (exists t, t ∈ ts /\ id t = task_id) ->
  exists pre t post,
    ts = pre ++ t :: post
    /\ Forall (fun u => id u <> task_id) pre /\ id t = task_id
    /\ delete_task py_eq task_id ts
       = (Ret {| body := PResult true; status := 200 |}, pre ++ post)
    /\ (length (pre ++ post) + 1 = length ts)%nat
    /\ get_task task_id (pre ++ post)
       = (Ret {| body := PError "Task not found"; status := 404 |},
          pre ++ post).
Proof.
  intros Hr (t0 & Hin & Hid). apply reachable_ascending in Hr.
  destruct (first_match task_id ts)
  as [H | (pre & t & post & -> & Ht & Hpre)].
  { rewrite Forall_forall in H. by destruct (H t0 Hin). }
  exists pre, t, post. repeat split; try assumption.
  - by apply delete_task_found.
  - rewrite !length_app. simpl. lia.
  - apply get_task_missing. rewrite <- Ht. by apply ascending_unique.
Qed.

(** C7, as the code has it: when the body parses to a JSON object without
    a [title] key, or to a value that is false in a condition, or to a
    string or list that does not contain "title", create_task answers 400
    "Title is required" and the list is exactly what it was. A body that
    does not parse and a request that is not JSON do not get that answer:
    the read of [request.json] raises BadRequest and UnsupportedMediaType;
    the list is what it was there too. *)
Theorem create_task_missing_title rj ts :
  (forall v,
     rj = Parsed v ->
     truthy v = false
     \/ (exists d, v = JDict d /\ d !! "title" = None)
     \/ (exists s, v = JStr s /\ String.index 0 "title" s = None)
     \/ (exists l, v = JList l /\ JStr "title" ∉ l) ->
     create_task rj ts
     = (Ret {| body := PError "Title is required"; status := 400 |}, ts))
  /\ (rj = Malformed -> create_task rj ts = (Raise BadRequest, ts))
  /\ (rj = NotJSON -> create_task rj ts = (Raise UnsupportedMediaType, ts)).
Proof.
  split; [|split].
  - intros v -> Hv. by apply create_task_title_missing, title_missing_true.
  - intros ->. by apply create_task_no_json.
  - intros ->. by apply create_task_no_json.
Qed.

(** C8: in every non-empty list the service can hold, when create_task
    succeeds and reports task [t], get_task on [t]'s id in the resulting
    list answers 200 with [t] under key [task]. *)
Theorem get_task_after_create ts rj res ts' t :
  reachable py_eq ts -> ts <> [] ->
  create_task rj ts = (res, ts') -> created_task res = Some t ->
  get_task (id t) ts' = (Ret {| body := PTask t; status := 200 |}, ts').
Proof.
  intros Hr _ E Ht.
  destruct (create_task_appends_above ts rj res ts' t Hr E Ht) as [-> Hlt].
  rewrite <- (app_nil_r (ts ++ [t])), <- app_assoc. simpl.
  apply get_task_found; [|reflexivity].
  eapply Forall_impl; [exact Hlt|]. intros u Hu. simpl in Hu. lia.
Qed.

(** C9: a run of create_task calls with accepted bodies on a non-empty
    list all succeed, and each created task's id is strictly above the id
    of the task created just before it. *)
Theorem create_ids_increase ts bodies :
  ts <> [] -> Forall has_title bodies ->
  exists created,
    (serve py_eq (POST_tasks <$> bodies) ts).1
    = (fun t => Ret {| body := PTask t; status := 201 |}) <$> created
    /\ length created = length bodies
    /\ Sorted (fun a b => id a < id b) created.
Proof.
  intros Hne Hb. apply last_is_Some in Hne as [last_task Hl].
  destruct (serve_creates bodies ts last_task Hl Hb)
    as (created & Hout & Hlen & Hsorted & _).
  by exists created.
Qed.

(** C10: when no task has the id, update_task answers 404 "Task not found"
    whatever the body is, absent and unparseable included, since the
    lookup comes before the body check; the list is unchanged. *)
Theorem update_task_not_found_first task_id rj ts :
  Forall (fun u => id u <> task_id) ts ->
  update_task task_id rj ts
  = (Ret {| body := PError "Task not found"; status := 404 |}, ts).
Proof. apply update_task_missing. Qed.

End Properties.

(** The results and the lists of the service do not depend on what [==]
    says of field values: [tasks.remove] always takes the located dict. *)
Lemma delete_task_any_eq eq1 eq2 task_id ts :
  delete_task eq1 task_id ts = delete_task eq2 task_id ts.
Proof.
  destruct (first_match task_id ts)
    as [H | (pre & t & post & -> & Ht & Hpre)].
  - by rewrite !delete_task_missing.
  - by rewrite !delete_task_found.
Qed.

Lemma serve_any_eq eq1 eq2 rs ts : serve eq1 rs ts = serve eq2 rs ts.
Proof.
  revert ts. induction rs as [|r rs IH]; intros ts; [reflexivity|].
  rewrite !serve_cons.
  assert (dispatch eq1 r ts = dispatch eq2 r ts) as ->
    by (destruct r; simpl; auto using delete_task_any_eq).
  by rewrite IH.
Qed.

(** ** The service on concrete requests *)

(** C1, as stated, fails: POST, DELETE of the task just created, POST again
    hands out id 3 twice, so the ids of the tasks ever created (1, 2, 3, 3)
    are not pairwise distinct. *)
Lemma id_reused_after_delete :
  (serve scalar_eq
     [POST_tasks (obj [("title", JStr "A")]);
      DELETE_task 3;
      POST_tasks (obj [("title", JStr "B")])] tasks).1
  = [Ret {| body := PTask {| id := 3; title := JStr "A";
                             description := JStr ""; done := JBool false |};
            status := 201 |};
     Ret {| body := PResult true; status := 200 |};
     Ret {| body := PTask {| id := 3; title := JStr "B";
                             description := JStr ""; done := JBool false |};
            status := 201 |}]
  /\ ~ NoDup (id <$> ever_created scalar_eq
                [POST_tasks (obj [("title", JStr "A")]);
                 DELETE_task 3;
                 POST_tasks (obj [("title", JStr "B")])]).
Proof.
  split; [reflexivity|]. vm_compute. intros H.
  apply NoDup_cons in H as [_ H]. apply NoDup_cons in H as [_ H].
  apply NoDup_cons in H as [H _]. apply H. by left.
Qed.

Lemma create_task_id_above_current_seed :
  (exists last_task,
     last tasks = Some last_task
     /\ id {| id := 3; title := JStr "Task 3"; description := JStr "";
              done := JBool false |} = id last_task + 1)
  /\ Forall (fun u => id u < 3) tasks.
Proof.
  apply (create_task_id_above_current scalar_eq tasks
           (obj [("title", JStr "Task 3")])
           (Ret {| body := PTask {| id := 3; title := JStr "Task 3";
                                    description := JStr "";
                                    done := JBool false |};
                   status := 201 |})
           (tasks ++ [{| id := 3; title := JStr "Task 3";
                         description := JStr ""; done := JBool false |}])).
  - exists []. reflexivity.
  - reflexivity.
  - reflexivity.
Defined.

(** C2, as stated, fails: deleting both sample tasks empties the list, and
    the create_task that follows is invoked on the empty list, where
    [tasks[-1]] raises IndexError. *)
Lemma create_task_invoked_on_empty_list :
  (serve scalar_eq [DELETE_task 1; DELETE_task 2] tasks).2 = []
  /\ serve scalar_eq
       [DELETE_task 1; DELETE_task 2; POST_tasks (obj [("title", JStr "X")])]
       tasks
     = ([Ret {| body := PResult true; status := 200 |};
         Ret {| body := PResult true; status := 200 |};
         Raise IndexError], []).
Proof. split; reflexivity. Qed.

Lemma create_task_postcondition_seed :
  exists last_task,
    last tasks = Some last_task
    /\ create_task (Parsed (JDict {["title" := JStr "Task 3"]})) tasks
       = (Ret {| body := PTask {| id := id last_task + 1;
                                  title := JStr "Task 3";
                                  description := JStr "";
                                  done := JBool false |};
                 status := 201 |},
          tasks ++ [{| id := id last_task + 1; title := JStr "Task 3";
                       description := JStr ""; done := JBool false |}]).
Proof.
  refine (create_task_postcondition tasks {["title" := JStr "Task 3"]}
            (JStr "Task 3") _ _).
  - discriminate.
  - reflexivity.
Defined.



Lemma update_task_frame_seed :
  update_task 2 (Parsed (JDict {["done" := JBool true]})) tasks
  = (Ret {| body := PTask {| id := 2; title := JStr "Task 2";
                             description := JStr "Description for Task 2";
                             done := JBool true |};
            status := 200 |},
     [ {| id := 1; title := JStr "Task 1";
          description := JStr "Description for Task 1"; done := JBool false |};
       {| id := 2; title := JStr "Task 2";
          description := JStr "Description for Task 2"; done := JBool true |} ]).
Proof.
  refine (proj2 (update_task_frame 2 {["done" := JBool true]}
                   [ {| id := 1; title := JStr "Task 1";
                        description := JStr "Description for Task 1";
                        done := JBool false |} ]
                   {| id := 2; title := JStr "Task 2";
                      description := JStr "Description for Task 2";
                      done := JBool false |} [] _ _)).
  - repeat constructor. simpl. lia.
  - reflexivity.
Defined.

Lemma delete_task_postcondition_seed :
  exists pre t post,
    tasks = pre ++ t :: post
    /\ Forall (fun u => id u <> 2) pre /\ id t = 2
    /\ delete_task scalar_eq 2 tasks
       = (Ret {| body := PResult true; status := 200 |}, pre ++ post)
    /\ (length (pre ++ post) + 1 = length tasks)%nat
    /\ get_task 2 (pre ++ post)
       = (Ret {| body := PError "Task not found"; status := 404 |}, pre ++ post).
Proof.
  apply (delete_task_postcondition scalar_eq tasks 2).
  - exists []. reflexivity.
  - exists {| id := 2; title := JStr "Task 2";
              description := JStr "Description for Task 2"; done := JBool false |}.
    split; [right; left | reflexivity].
Defined.

(** C7, as stated, fails: a body that does not parse and a request that
    is not JSON make the read of [request.json] raise, and the body [5],
    which has no [title] key, makes the [in] test raise TypeError; none of
    the three gets the 400 "Title is required" answer. *)
Lemma create_task_without_title_raises :
  create_task Malformed tasks = (Raise BadRequest, tasks)
  /\ create_task NotJSON tasks = (Raise UnsupportedMediaType, tasks)
  /\ create_task (Parsed (JInt 5)) tasks = (Raise TypeError, tasks).
Proof. repeat split. Qed.

Lemma get_task_after_create_seed :
  get_task 3 (tasks ++ [{| id := 3; title := JStr "X"; description := JStr "";
                           done := JBool false |}])
  = (Ret {| body := PTask {| id := 3; title := JStr "X"; description := JStr "";
                             done := JBool false |};
            status := 200 |},
     tasks ++ [{| id := 3; title := JStr "X"; description := JStr "";
                  done := JBool false |}]).
Proof.
  refine (get_task_after_create scalar_eq tasks (obj [("title", JStr "X")])
            (Ret {| body := PTask {| id := 3; title := JStr "X";
                                     description := JStr "";
                                     done := JBool false |};
                    status := 201 |})
            (tasks ++ [{| id := 3; title := JStr "X"; description := JStr "";
                          done := JBool false |}])
            {| id := 3; title := JStr "X"; description := JStr "";
               done := JBool false |} _ _ _ _).
  - exists []. reflexivity.
  - discriminate.
  - reflexivity.
  - reflexivity.
Defined.

Lemma create_ids_increase_seed :
  exists created,
    (serve scalar_eq
       (POST_tasks <$> [obj [("title", JStr "A")]; obj [("title", JStr "B")]])
       tasks).1
    = (fun t => Ret {| body := PTask t; status := 201 |}) <$> created
    /\ length created = 2%nat
    /\ Sorted (fun a b => id a < id b) created.
Proof.
  apply (create_ids_increase scalar_eq tasks
           [obj [("title", JStr "A")]; obj [("title", JStr "B")]]).
  - discriminate.
  - repeat constructor.
    + eexists. split; [reflexivity|]. by eexists.
    + eexists. split; [reflexivity|]. by eexists.
Defined.

Lemma update_task_not_found_first_seed :
  update_task 7 NotJSON tasks
  = (Ret {| body := PError "Task not found"; status := 404 |}, tasks).
Proof.
  apply (update_task_not_found_first 7 NotJSON tasks).
  repeat constructor; simpl; lia.
Defined.

(** ** Further properties of the handlers *)

Lemma find_none task_id ts :
  Forall (fun u => id u <> task_id) ts ->
  List.find (fun u => id u =? task_id) ts = None.
Proof.
  induction 1 as [|u ts Hu _ IH]; simpl; [reflexivity|].
  by destruct (Z.eqb_spec (id u) task_id).
Qed.

Lemma find_first task_id pre t post :
  Forall (fun u => id u <> task_id) pre -> id t = task_id ->
  List.find (fun u => id u =? task_id) (pre ++ t :: post) = Some t.
Proof.
  intros Hpre Ht. induction Hpre as [|u pre Hu _ IH]; simpl.
  - by rewrite Ht, Z.eqb_refl.
  - by destruct (Z.eqb_spec (id u) task_id).
Qed.

(** get_task answers with the first task of the id, if any. *)
Lemma get_task_find task_id ts :
  get_task task_id ts
  = (match List.find (fun u => id u =? task_id) ts with
     | Some t => Ret (mkResponse (PTask t) 200)
     | None => Ret not_found
     end, ts).
Proof.
  destruct (first_match task_id ts)
    as [H | (pre & t & post & -> & Ht & Hpre)].
  - by rewrite get_task_missing, find_none.
  - by rewrite get_task_found, find_first.
Qed.

(** A task of another id does not count in the search. *)
Lemma find_skip task_id pre x post :
  id x <> task_id ->
  List.find (fun u => id u =? task_id) (pre ++ x :: post)
  = List.find (fun u => id u =? task_id) (pre ++ post).
Proof.
  intros Hx. induction pre as [|u pre IH]; simpl.
  - by destruct (Z.eqb_spec (id x) task_id).
  - by rewrite IH.
Qed.

Lemma ascending_NoDup ts : ascending ts -> NoDup (id <$> ts).
Proof.
  induction 1 as [|t ts _ IH Hhd]; simpl; constructor; [|assumption].
  intros Hin. apply list_elem_of_fmap in Hin as (u & Hu & Hin).
  rewrite Forall_forall in Hhd. specialize (Hhd u Hin). simpl in Hhd. lia.
Qed.

Section MoreProperties.

Variable py_eq : json -> json -> bool.

(** What one request can do to the list: nothing, append a task with the
    id after the last one, replace a task by one of the same id, or remove
    a task. *)
Lemma dispatch_shape r ts :
  (dispatch py_eq r ts).2 = ts
  \/ (exists last_task t,
        last ts = Some last_task /\ id t = id last_task + 1
        /\ created_task (dispatch py_eq r ts).1 = Some t
        /\ (dispatch py_eq r ts).2 = ts ++ [t])
  \/ (exists pre t t' post,
        ts = pre ++ t :: post /\ id t' = id t
        /\ (dispatch py_eq r ts).2 = pre ++ t' :: post)
  \/ (exists pre t post,
        ts = pre ++ t :: post /\ (dispatch py_eq r ts).2 = pre ++ post).
Proof.
  destruct r as [|task_id|rj|task_id rj|task_id]; simpl dispatch.
  - by left.
  - left. apply get_task_state.
  - destruct (create_task_cases rj ts) as [-> | [t Ht]]; [by left|].
    destruct (create_task rj ts) as [res ts'] eqn:E. simpl in *.
    destruct (create_task_201_inv _ _ _ _ _ E Ht)
      as (d & new_title & last_task & _ & _ & Hl & Heq & _ & ->).
    right; left. exists last_task, t. by rewrite Heq at 1.
  - update_cases task_id rj ts; rewrite E; try by left.
    right; right; left. by exists pre, t0, (merged d t0), post.
  - destruct (first_match task_id ts)
      as [H | (pre & t & post & -> & Ht & Hpre)].
    + left. by rewrite delete_task_missing.
    + right; right; right. exists pre, t, post.
      by rewrite delete_task_found.
Qed.

(** An invariant of the four shapes holds in every list the service can
    hold. *)
Lemma reachable_ind_shape (P : list Task -> Prop) :
  P tasks ->
  (forall ts last_task t,
     P ts -> last ts = Some last_task -> id t = id last_task + 1 ->
     P (ts ++ [t])) ->
  (forall pre t t' post,
     P (pre ++ t :: post) -> id t' = id t -> P (pre ++ t' :: post)) ->
  (forall pre t post, P (pre ++ t :: post) -> P (pre ++ post)) ->
  forall ts, reachable py_eq ts -> P ts.
Proof.
  intros Hseed Happ Hrepl Hdel ts [rs <-].
  assert (forall rs ts, P ts -> P (serve py_eq rs ts).2) as Hserve.
  { clear rs. induction rs as [|r rs IH]; intros ts Hts; [assumption|].
    rewrite serve_cons. cbn [snd]. apply IH.
    destruct (dispatch_shape r ts)
      as [-> | [(lt & t & Hl & Ht & _ & ->)
                | [(pre & t & t' & post & -> & Ht & ->)
                   | (pre & t & post & -> & ->)]]]; eauto. }
  by apply Hserve.
Qed.

(** X1: GET requests leave no trace. Serving a sequence gives the same
    final list, and the same results for its other requests, as serving the
    sequence without its GETs. *)
Theorem reads_leave_no_trace rs ts :
  (serve py_eq rs ts).2 = (serve py_eq (List.filter writes rs) ts).2
  /\ List.filter (fun p => writes p.1) (zip rs (serve py_eq rs ts).1)
     = zip (List.filter writes rs)
           (serve py_eq (List.filter writes rs) ts).1.
Proof.
  revert ts. induction rs as [|r rs IH]; intros ts; [by split|].
  rewrite serve_cons. cbn [fst snd]. simpl List.filter. simpl zip.
  cbn [fst]. destruct (writes r) eqn:Hw.
  - rewrite serve_cons. cbn [fst snd]. simpl zip.
    destruct (IH (dispatch py_eq r ts).2) as [-> ->]. by split.
  - assert ((dispatch py_eq r ts).2 = ts) as ->; [|apply IH].
    destruct r; try discriminate; simpl; [reflexivity | apply get_task_state].
Qed.

(** X2: in every list the service can hold, each task is the one get_task
    answers with, status 200, for its id. *)
Theorem every_task_retrievable ts t :
  reachable py_eq ts -> t ∈ ts ->
  get_task (id t) ts = (Ret {| body := PTask t; status := 200 |}, ts).
Proof.
  intros Hr Hin. apply reachable_ascending in Hr.
  apply list_elem_of_split in Hin as (pre & post & ->).
  apply get_task_found; [|reflexivity].
  apply ascending_unique, Forall_app in Hr. tauto.
Qed.

(** X3: on any list, get_task answers 404 "Task not found" exactly when no
    task has the id; it never raises and never changes the list. *)
Theorem get_task_not_found_iff task_id ts :
  ((get_task task_id ts).1
   = Ret {| body := PError "Task not found"; status := 404 |}
   <-> ~ exists t, t ∈ ts /\ id t = task_id)
  /\ (forall e, (get_task task_id ts).1 <> Raise e)
  /\ (get_task task_id ts).2 = ts.
Proof.
  destruct (first_match task_id ts)
    as [H | (pre & t & post & -> & Ht & Hpre)].
  - rewrite get_task_missing by assumption. simpl.
    split; [|by split]. split; [|reflexivity].
    intros _ (t & Hin & Ht). rewrite Forall_forall in H. by apply (H t).
  - rewrite get_task_found by assumption. simpl.
    split; [|by split]. split; [discriminate|].
    intros Hno. destruct Hno. exists t. split; [|assumption].
    apply elem_of_app. right. by left.
Qed.

(** X4: on any list, delete_task never raises (the [remove] always finds
    its argument): it answers 404 and leaves the list as it is when no task
    has the id, and otherwise answers 200 {result: true} and leaves a list
    one shorter, whose other tasks are in their order. *)
Theorem delete_task_never_raises task_id ts :
  (forall e, (delete_task py_eq task_id ts).1 <> Raise e)
  /\ (((~ exists t, t ∈ ts /\ id t = task_id)
       /\ delete_task py_eq task_id ts
          = (Ret {| body := PError "Task not found"; status := 404 |}, ts))
      \/ ((delete_task py_eq task_id ts).1
          = Ret {| body := PResult true; status := 200 |}
          /\ (length (delete_task py_eq task_id ts).2 + 1 = length ts)%nat
          /\ sublist (delete_task py_eq task_id ts).2 ts)).
Proof.
  destruct (first_match task_id ts)
    as [H | (pre & t & post & -> & Ht & Hpre)].
  - rewrite delete_task_missing by assumption.
    split; [discriminate|]. left. split; [|reflexivity].
    intros (t & Hin & Ht). rewrite Forall_forall in H. by apply (H t).
  - rewrite delete_task_found by assumption.
    split; [discriminate|]. right. simpl. split; [reflexivity|]. split.
    + rewrite !length_app. simpl. lia.
    + apply sublist_app; [reflexivity|]. by apply sublist_cons.
Qed.

(** Only create_task reports a created task. *)
Lemma created_task_post r ts t :
  created_task (dispatch py_eq r ts).1 = Some t -> exists rj, r = POST_tasks rj.
Proof.
  destruct r as [|task_id|rj|task_id rj|task_id]; simpl dispatch.
  - discriminate.
  - rewrite get_task_find. simpl. by destruct (List.find _ ts).
  - by exists rj.
  - update_cases task_id rj ts; rewrite E; discriminate.
  - destruct (first_match task_id ts)
      as [H | (pre & u & post & -> & Hu & Hpre)].
    + by rewrite delete_task_missing.
    + by rewrite delete_task_found.
Qed.

(** X5: once the list is empty it stays empty. Whatever is served on the
    empty list, the list is empty at the end and no result reports a
    created task; a create_task with an accepted body raises IndexError
    there. *)
Theorem empty_list_is_final rs :
  (serve py_eq rs []).2 = []
  /\ Forall (fun res => created_task res = None) (serve py_eq rs []).1
  /\ (forall rj, has_title rj -> create_task rj [] = (Raise IndexError, [])).
Proof.
  assert (forall r, (dispatch py_eq r []).2 = []
                    /\ created_task (dispatch py_eq r []).1 = None) as Hstep.
  { intros r. destruct (dispatch_shape r [])
      as [Hsame | [(lt & t & Hl & _) | [(pre & t & t' & post & Hts & _)
                                        | (pre & t & post & Hts & _)]]];
      try discriminate; try by destruct pre.
    split; [assumption|].
    destruct (created_task (dispatch py_eq r []).1) as [t|] eqn:Ht;
      [|reflexivity].
    destruct (created_task_post _ _ _ Ht) as [rj ->]. simpl in *.
    destruct (create_task_effect rj []) as [[Hn _] | (t' & _ & Happ)];
      [congruence|].
    rewrite Hsame in Happ. discriminate. }
  split; [|split].
  - induction rs as [|r rs IH]; [reflexivity|].
    rewrite serve_cons. cbn [snd]. by rewrite (proj1 (Hstep r)).
  - induction rs as [|r rs IH]; [constructor|].
    rewrite serve_cons. cbn [fst]. rewrite (proj1 (Hstep r)).
    constructor; [apply Hstep | assumption].
  - intros rj (d & -> & [new_title Hd]).
    unfold create_task, mbind, handler_bind, hbind, lift, read.
    simpl request_json. cbv beta iota. rewrite title_missing_dict.
    rewrite bool_decide_eq_true_2 by (rewrite Hd; eauto). reflexivity.
Qed.

(** X6: in every list the service can hold, the ids are at least 1, grow
    strictly along the list, and so are pairwise distinct. *)
Theorem reachable_ids_distinct_positive ts :
  reachable py_eq ts ->
  Forall (fun t => 1 <= id t) ts
  /\ StronglySorted Z.lt (id <$> ts)
  /\ NoDup (id <$> ts).
Proof.
  intros Hr. split; [|split].
  - revert ts Hr. apply reachable_ind_shape.
    + repeat constructor; simpl; lia.
    + intros ts lt t Hts Hl Ht. apply Forall_app. split; [assumption|].
      repeat constructor. apply last_Some_elem_of in Hl.
      rewrite Forall_forall in Hts. specialize (Hts lt Hl). simpl in Hts. lia.
    + intros pre t t' post Hts Hid.
      apply Forall_app in Hts as [Hpre Hpost].
      apply Forall_cons in Hpost as [Ht Hpost].
      apply Forall_app. split; [assumption|]. constructor; [lia | assumption].
    + intros pre t post Hts.
      apply Forall_app in Hts as [Hpre Hpost].
      apply Forall_cons in Hpost as [_ Hpost].
      by apply Forall_app.
  - apply reachable_ascending in Hr.
    induction Hr as [|t ts _ IH Hhd]; simpl; constructor; [assumption|].
    by apply Forall_fmap.
  - by apply ascending_NoDup, (reachable_ascending py_eq).
Qed.

(** X7: update_task never changes which ids the list holds, nor their
    order, nor the length of the list, whatever the id and the body. *)
Theorem update_task_preserves_ids task_id rj ts :
  id <$> (update_task task_id rj ts).2 = id <$> ts.
Proof.
  update_cases task_id rj ts; rewrite E; try reflexivity.
  simpl. by rewrite !fmap_app.
Qed.

(** X8: update_task on one id does not change what get_task answers for
    another id. *)
Theorem update_task_other_untouched task_id task_id' rj ts :
  task_id' <> task_id ->
  (get_task task_id' (update_task task_id rj ts).2).1
  = (get_task task_id' ts).1.
Proof.
  intros Hne.
  update_cases task_id rj ts; rewrite E; try reflexivity.
  rewrite !get_task_find. simpl.
  rewrite !find_skip by (simpl; congruence). reflexivity.
Qed.

(** X9: delete_task on one id does not change what get_task answers for
    another id. *)
Theorem delete_task_other_untouched task_id task_id' ts :
  task_id' <> task_id ->
  (get_task task_id' (delete_task py_eq task_id ts).2).1
  = (get_task task_id' ts).1.
Proof.
  intros Hne.
  destruct (first_match task_id ts)
    as [H | (pre & t & post & -> & Ht & Hpre)].
  - by rewrite delete_task_missing.
  - rewrite delete_task_found by assumption.
    rewrite !get_task_find. simpl. rewrite find_skip by congruence.
    reflexivity.
Qed.

(** X10: a successful create_task does not change what get_task answers for
    any id other than the new one. *)
Theorem create_task_other_untouched task_id' rj ts t :
  created_task (create_task rj ts).1 = Some t -> task_id' <> id t ->
  (get_task task_id' (create_task rj ts).2).1 = (get_task task_id' ts).1.
Proof.
  intros Ht Hne.
  destruct (create_task_effect rj ts) as [[Hn _] | (t' & Ht' & ->)];
    [congruence|].
  assert (t' = t) as -> by congruence.
  rewrite !get_task_find. simpl. rewrite find_skip by congruence.
  by rewrite app_nil_r.
Qed.

(** X11: update_task is idempotent. Sending the same PUT again gives the
    same answer and leaves the list as the first one left it. *)
Theorem update_task_idempotent task_id rj ts :
  update_task task_id rj (update_task task_id rj ts).2
  = update_task task_id rj ts.
Proof.
  update_cases task_id rj ts; rewrite E; simpl; try exact E.
  rewrite update_task_merges by assumption.
  assert (merged d (merged d t0) = merged d t0) as ->; [|reflexivity].
  unfold merged. simpl.
  by destruct (d !! "title"), (d !! "description"), (d !! "done").
Qed.

(** X12: in every list the service can hold, a second delete_task on the
    same id answers 404 and changes nothing more. *)
Theorem delete_task_twice task_id ts :
  reachable py_eq ts ->
  delete_task py_eq task_id (delete_task py_eq task_id ts).2
  = (Ret {| body := PError "Task not found"; status := 404 |},
     (delete_task py_eq task_id ts).2).
Proof.
  intros Hr. apply reachable_ascending in Hr.
  destruct (first_match task_id ts)
    as [H | (pre & t & post & -> & Ht & Hpre)].
  - rewrite (delete_task_missing py_eq task_id ts) by assumption. simpl.
    by apply delete_task_missing.
  - rewrite (delete_task_found py_eq task_id pre t post) by assumption.
    simpl. apply delete_task_missing. rewrite <- Ht.
    by apply ascending_unique.
Qed.

(** X13: create_task succeeds (answers 201 with a task) exactly when the
    body is a JSON object with a [title] key and the list is not empty. *)
Theorem create_task_succeeds_iff rj ts :
  is_Some (created_task (create_task rj ts).1)
  <-> has_title rj /\ ts <> [].
Proof.
  split.
  - intros [t Ht]. destruct (create_task rj ts) as [res ts'] eqn:E.
    destruct (create_task_201_inv _ _ _ _ _ E Ht)
      as (d & new_title & last_task & -> & Hd & Hl & _).
    split; [exists d; by rewrite Hd|]. intros ->. discriminate.
  - intros [(d & -> & [new_title Hd]) Hne].
    apply last_is_Some in Hne as [last_task Hl].
    rewrite (create_task_accepts _ _ _ _ Hd Hl). by eexists.
Qed.

(** X14: what create_task can raise. An exception leaves the list as it
    was, and is one of four: IndexError, on the empty list only; TypeError,
    only on a body that parses to a true value that is not a JSON object;
    BadRequest, exactly the one the read of [request.json] raises on a body
    that does not parse; UnsupportedMediaType, the one it raises on a
    request that is not JSON. *)
Theorem create_task_raises rj ts e ts' :
  create_task rj ts = (Raise e, ts') ->
  ts' = ts
  /\ ((e = IndexError /\ ts = [])
      \/ (e = TypeError
          /\ exists v, rj = Parsed v /\ truthy v = true
                       /\ forall d, v <> JDict d)
      \/ (e = BadRequest /\ rj = Malformed)
      \/ (e = UnsupportedMediaType /\ rj = NotJSON)).
Proof.
  unfold create_task, mbind, handler_bind, hbind, lift, read, title_missing.
  destruct rj as [rq| |]; simpl request_json; cbv beta iota;
    [|intros [= <- <-]; split; [reflexivity|]; do 2 right; by (left + right)..].
  destruct (truthy rq) eqn:Hrq; simpl; [|discriminate].
  destruct (py_in "title" rq) as [[|]|e0] eqn:Hin; simpl.
  - unfold py_last. destruct (last ts) as [last_task|] eqn:Hl; simpl.
    + destruct rq as [| | | | | |d]; simpl in *; try discriminate;
        try (intros [= <- <-]; split; [reflexivity|]; right; left;
             split; [reflexivity|]; eexists; split; [reflexivity|];
             split; [assumption | congruence]).
      injection Hin as Hin. apply bool_decide_eq_true in Hin as [v Hv].
      rewrite Hv. discriminate.
    + intros [= <- <-]. split; [reflexivity|]. left.
      split; [reflexivity | by apply last_None].
  - discriminate.
  - destruct rq as [| | | | | |d]; simpl in *; try discriminate;
      injection Hin as <-; intros [= <- <-]; split; try reflexivity;
      right; left; (split; [reflexivity|]); eexists;
      (split; [reflexivity|]); (split; [assumption | congruence]).
Qed.

(** X15: what update_task can raise. On the id of an existing task it
    raises AttributeError exactly when the body parses to a true value that
    is not a JSON object, BadRequest exactly when the body does not parse
    and UnsupportedMediaType exactly when the request is not JSON (the last
    two from the read of [request.json]); on any list it raises nothing
    else, and a raise leaves the list as it was. *)
Theorem update_task_raises task_id rj ts :
  ((exists t, t ∈ ts /\ id t = task_id) ->
   ((update_task task_id rj ts).1 = Raise AttributeError
    <-> exists v, rj = Parsed v /\ truthy v = true
                  /\ forall d, v <> JDict d)
   /\ ((update_task task_id rj ts).1 = Raise BadRequest <-> rj = Malformed)
   /\ ((update_task task_id rj ts).1 = Raise UnsupportedMediaType
       <-> rj = NotJSON))
  /\ (forall e, (update_task task_id rj ts).1 = Raise e ->
      (e = AttributeError \/ e = BadRequest \/ e = UnsupportedMediaType)
      /\ (update_task task_id rj ts).2 = ts).
Proof.
  update_cases task_id rj ts; rewrite E; simpl.
  - split; [|discriminate]. intros (t & Hin & Ht).
    rewrite Forall_forall in Hmiss. by destruct (Hmiss t Hin).
  - split; [|discriminate]. intros _.
    split; [|split]; (split; [discriminate|]); try discriminate.
    intros (v' & [= <-] & Hv & _). congruence.
  - split; [|discriminate]. intros _.
    split; [|split]; (split; [discriminate|]); try discriminate.
    intros (v' & [= <-] & _ & Hno). by destruct (Hno d).
  - split; [|intros e [= <-]; auto]. intros _.
    split; [|split]; split; try discriminate; try reflexivity.
    intros _. by exists v.
  - split; [|intros e [= <-]; auto]. intros _.
    split; [|split]; split; try discriminate; try reflexivity.
    intros (? & ? & _). discriminate.
  - split; [|intros e [= <-]; auto]. intros _.
    split; [|split]; split; try discriminate; try reflexivity.
    intros (? & ? & _). discriminate.
Qed.

(** X16: the id of a deleted last task is handed out again. In every list
    the service can hold, creating a task, deleting it and creating another
    gives the second task the id of the first, and the list ends up as the
    old list with the second task appended. *)
Theorem id_reused_after_deleting_last ts last_task rj1 rj2 :
  reachable py_eq ts -> last ts = Some last_task ->
  has_title rj1 -> has_title rj2 ->
  exists t1 t2,
    serve py_eq
      [POST_tasks rj1; DELETE_task (id last_task + 1); POST_tasks rj2] ts
    = ([Ret {| body := PTask t1; status := 201 |};
        Ret {| body := PResult true; status := 200 |};
        Ret {| body := PTask t2; status := 201 |}],
       ts ++ [t2])
    /\ id t1 = id last_task + 1 /\ id t2 = id t1.
Proof.
  intros Hr Hl (d1 & -> & [title1 Hd1]) (d2 & -> & [title2 Hd2]).
  apply reachable_ascending in Hr.
  pose proof (ascending_below_last _ _ Hr Hl) as Hle.
  eexists _, _. rewrite !serve_cons. simpl dispatch.
  rewrite (create_task_accepts _ _ _ _ Hd1 Hl). cbn [fst snd].
  rewrite delete_task_found; [|clear -Hle|reflexivity].
  - cbn [fst snd]. rewrite app_nil_r.
    rewrite (create_task_accepts _ _ _ _ Hd2 Hl). cbn [fst snd].
    split; [reflexivity|]. by split.
  - eapply Forall_impl; [exact Hle|]. intros u Hu. simpl in Hu. lia.
Qed.

(** X17: what each route can answer. Whenever a handler returns, the
    response is one of the few the code builds: the whole list with 200 for
    GET /tasks; a task with 200 or the 404 error for GET /tasks/id; a task
    with 201 or the 400 title error for POST; a task with 200, the 400
    no-data error or the 404 error for PUT; {result: true} with 200 or the
    404 error for DELETE. *)
Theorem response_table r ts resp :
  (dispatch py_eq r ts).1 = Ret resp ->
  match r with
  | GET_tasks => resp = {| body := PTasks ts; status := 200 |}
  | GET_task _ =>
      (exists t, t ∈ ts /\ resp = {| body := PTask t; status := 200 |})
      \/ resp = {| body := PError "Task not found"; status := 404 |}
  | POST_tasks _ =>
      (exists t, resp = {| body := PTask t; status := 201 |})
      \/ resp = {| body := PError "Title is required"; status := 400 |}
  | PUT_task _ _ =>
      (exists t, resp = {| body := PTask t; status := 200 |})
      \/ resp = {| body := PError "No data provided"; status := 400 |}
      \/ resp = {| body := PError "Task not found"; status := 404 |}
  | DELETE_task _ =>
      resp = {| body := PResult true; status := 200 |}
      \/ resp = {| body := PError "Task not found"; status := 404 |}
  end.
Proof.
  destruct r as [|task_id|rj|task_id rj|task_id]; simpl dispatch.
  - by intros [= <-].
  - destruct (first_match task_id ts)
      as [H | (pre & t & post & -> & Ht & Hpre)].
    + rewrite get_task_missing by assumption. intros [= <-]. by right.
    + rewrite get_task_found by assumption. intros [= <-]. left.
      exists t. split; [|reflexivity]. apply elem_of_app. right. by left.
  - unfold create_task, mbind, handler_bind, hbind, lift, read.
    destruct rj as [rq| |]; simpl; [|discriminate..].
    destruct (title_missing rq) as [[|]|e]; simpl;
      [intros [= <-]; by right | | discriminate].
    destruct (py_last ts); simpl; [|discriminate].
    destruct (py_getitem rq "title"); simpl; [|discriminate].
    destruct (py_get rq "description" (JStr "")); simpl;
      [|discriminate].
    intros [= <-]. left. by eexists.
  - update_cases task_id rj ts; rewrite E; simpl; try discriminate;
      intros [= <-]; eauto.
  - destruct (first_match task_id ts)
      as [H | (pre & t & post & -> & Ht & Hpre)].
    + rewrite delete_task_missing by assumption. intros [= <-]. by right.
    + rewrite delete_task_found by assumption. intros [= <-]. by left.
Qed.

(** X18: starting from the sample data, no id in the list exceeds two plus
    the number of successful creates served so far. *)
Theorem ids_bounded_by_creates rs :
  Forall (fun t => id t <= 2 + Z.of_nat (created_count (serve py_eq rs tasks).1))
         (serve py_eq rs tasks).2.
Proof.
  assert (forall rs ts B,
            Forall (fun t => id t <= B) ts ->
            Forall (fun t => id t
                             <= B + Z.of_nat (created_count (serve py_eq rs ts).1))
                   (serve py_eq rs ts).2) as Hgen.
  { clear rs. induction rs as [|r rs IH]; intros ts B Hts.
    { simpl. eapply Forall_impl; [exact Hts|]. intros t Ht. simpl in *.
      unfold created_count. simpl. lia. }
    rewrite serve_cons. cbn [fst snd]. rewrite created_count_cons.
    rewrite Nat2Z.inj_add, Z.add_assoc. apply IH.
    destruct (dispatch_shape r ts)
      as [-> | [(lt & t & Hl & Ht & Hc & ->)
                | [(pre & t & t' & post & -> & Ht & ->)
                   | (pre & t & post & -> & ->)]]].
    - eapply Forall_impl; [exact Hts|]. intros t Ht. simpl in *. lia.
    - unfold created_count. simpl. rewrite Hc. simpl.
      apply Forall_app. split.
      + eapply Forall_impl; [exact Hts|]. intros u Hu. simpl in *. lia.
      + repeat constructor. apply last_Some_elem_of in Hl.
        rewrite Forall_forall in Hts. specialize (Hts lt Hl). simpl in Hts.
        lia.
    - apply Forall_app in Hts as [Hpre Hpost].
      apply Forall_cons in Hpost as [Hle Hpost].
      apply Forall_app. split; [|constructor].
      + eapply Forall_impl; [exact Hpre|]. intros u Hu. simpl in *. lia.
      + lia.
      + eapply Forall_impl; [exact Hpost|]. intros u Hu. simpl in *. lia.
    - apply Forall_app in Hts as [Hpre Hpost].
      apply Forall_cons in Hpost as [_ Hpost].
      apply Forall_app. split.
      + eapply Forall_impl; [exact Hpre|]. intros u Hu. simpl in *. lia.
      + eapply Forall_impl; [exact Hpost|]. intros u Hu. simpl in *. lia. }
  apply Hgen. repeat constructor; simpl; lia.
Qed.

(** X19: insertion order is kept. A request that reports a created task
    has appended exactly that task to the otherwise unchanged list. Any
    other request either leaves the list with the ids it had, each in its
    place, or, when it reports a deletion, has removed exactly one task and
    left the others in their order. *)
Theorem insertion_order_kept r ts :
  match created_task (dispatch py_eq r ts).1 with
  | Some t => (dispatch py_eq r ts).2 = ts ++ [t]
  | None =>
      if deleted_task (dispatch py_eq r ts).1
      then exists pre t post,
             ts = pre ++ t :: post /\ (dispatch py_eq r ts).2 = pre ++ post
      else id <$> (dispatch py_eq r ts).2 = id <$> ts
  end.
Proof.
  destruct r as [|task_id|rj|task_id rj|task_id]; simpl dispatch.
  - reflexivity.
  - rewrite get_task_find. simpl. by destruct (List.find _ ts).
  - rewrite create_task_not_deleted.
    by destruct (create_task_effect rj ts) as [[-> ->] | (t & -> & ->)].
  - update_cases task_id rj ts; rewrite E; simpl; try reflexivity.
    by rewrite !fmap_app.
  - destruct (first_match task_id ts)
      as [H | (pre & t & post & -> & Ht & Hpre)].
    + by rewrite delete_task_missing.
    + rewrite delete_task_found by assumption. simpl. by exists pre, t, post.
Qed.

(** X20: update round trip. When update_task answers 200 with a task,
    get_task on the same id in the resulting list answers 200 with that
    same task, on any list. *)
Theorem get_task_after_update task_id rj ts t :
  (update_task task_id rj ts).1 = Ret {| body := PTask t; status := 200 |} ->
  get_task task_id (update_task task_id rj ts).2
  = (Ret {| body := PTask t; status := 200 |}, (update_task task_id rj ts).2).
Proof.
  update_cases task_id rj ts; rewrite E; simpl; try discriminate.
  intros [= <-]. by apply get_task_found.
Qed.

End MoreProperties.

Lemma every_task_retrievable_seed :
  get_task 2 tasks
  = (Ret {| body := PTask {| id := 2; title := JStr "Task 2";
                             description := JStr "Description for Task 2";
                             done := JBool false |};
            status := 200 |}, tasks).
Proof.
  refine (every_task_retrievable scalar_eq tasks
            {| id := 2; title := JStr "Task 2";
               description := JStr "Description for Task 2";
               done := JBool false |} _ _).
  - exists []. reflexivity.
  - right; left.
Defined.

Lemma reachable_ids_distinct_positive_seed :
  Forall (fun t => 1 <= id t)
    (serve scalar_eq [POST_tasks (obj [("title", JStr "A")]); DELETE_task 1]
       tasks).2
  /\ StronglySorted Z.lt
       (id <$> (serve scalar_eq
                  [POST_tasks (obj [("title", JStr "A")]); DELETE_task 1]
                  tasks).2)
  /\ NoDup (id <$> (serve scalar_eq
                      [POST_tasks (obj [("title", JStr "A")]); DELETE_task 1]
                      tasks).2).
Proof.
  apply (reachable_ids_distinct_positive scalar_eq).
  exists [POST_tasks (obj [("title", JStr "A")]); DELETE_task 1]. reflexivity.
Defined.

Lemma update_task_other_untouched_seed :
  (get_task 2 (update_task 1 (obj [("title", JStr "New")]) tasks).2).1
  = (get_task 2 tasks).1.
Proof.
  apply (update_task_other_untouched 1 2 (obj [("title", JStr "New")]) tasks).
  lia.
Defined.

Lemma delete_task_other_untouched_seed :
  (get_task 2 (delete_task scalar_eq 1 tasks).2).1 = (get_task 2 tasks).1.
Proof.
  apply (delete_task_other_untouched scalar_eq 1 2 tasks). lia.
Defined.

Lemma create_task_other_untouched_seed :
  (get_task 1 (create_task (obj [("title", JStr "A")]) tasks).2).1
  = (get_task 1 tasks).1.
Proof.
  refine (create_task_other_untouched 1 (obj [("title", JStr "A")]) tasks
            {| id := 3; title := JStr "A"; description := JStr "";
               done := JBool false |} _ _).
  - reflexivity.
  - simpl. lia.
Defined.

Lemma delete_task_twice_seed :
  delete_task scalar_eq 1 (delete_task scalar_eq 1 tasks).2
  = (Ret {| body := PError "Task not found"; status := 404 |},
     (delete_task scalar_eq 1 tasks).2).
Proof.
  apply (delete_task_twice scalar_eq 1 tasks). exists []. reflexivity.
Defined.

Lemma create_task_raises_seed :
  tasks = tasks
  /\ ((TypeError = IndexError /\ tasks = [])
      \/ (TypeError = TypeError
          /\ exists v, Parsed (JInt 5) = Parsed v /\ truthy v = true
                       /\ forall d, v <> JDict d)
      \/ (TypeError = BadRequest /\ Parsed (JInt 5) = Malformed)
      \/ (TypeError = UnsupportedMediaType /\ Parsed (JInt 5) = NotJSON)).
Proof.
  refine (create_task_raises (Parsed (JInt 5)) tasks TypeError tasks _).
  reflexivity.
Defined.

Lemma id_reused_after_deleting_last_seed :
  exists t1 t2,
    serve scalar_eq
      [POST_tasks (obj [("title", JStr "A")]);
       DELETE_task (2 + 1);
       POST_tasks (obj [("title", JStr "B")])] tasks
    = ([Ret {| body := PTask t1; status := 201 |};
        Ret {| body := PResult true; status := 200 |};
        Ret {| body := PTask t2; status := 201 |}],
       tasks ++ [t2])
    /\ id t1 = 2 + 1 /\ id t2 = id t1.
Proof.
  refine (id_reused_after_deleting_last scalar_eq tasks
            {| id := 2; title := JStr "Task 2";
               description := JStr "Description for Task 2";
               done := JBool false |}
            (obj [("title", JStr "A")]) (obj [("title", JStr "B")])
            _ _ _ _).
  - exists []. reflexivity.
  - reflexivity.
  - eexists. split; [reflexivity|]. by eexists.
  - eexists. split; [reflexivity|]. by eexists.
Defined.

Lemma response_table_seed :
  {| body := PResult true; status := 200 |}
  = {| body := PResult true; status := 200 |}
  \/ {| body := PResult true; status := 200 |}
     = {| body := PError "Task not found"; status := 404 |}.
Proof.
  refine (response_table scalar_eq (DELETE_task 1) tasks
            {| body := PResult true; status := 200 |} _).
  reflexivity.
Defined.

Lemma get_task_after_update_seed :
  get_task 1 (update_task 1 (obj [("done", JBool true)]) tasks).2
  = (Ret {| body := PTask {| id := 1; title := JStr "Task 1";
                             description := JStr "Description for Task 1";
                             done := JBool true |};
            status := 200 |},
     (update_task 1 (obj [("done", JBool true)]) tasks).2).
Proof.
  refine (get_task_after_update 1 (obj [("done", JBool true)]) tasks
            {| id := 1; title := JStr "Task 1";
               description := JStr "Description for Task 1";
               done := JBool true |} _).
  reflexivity.
Defined.
